(** * zap-errors: a shallow embedding of [errors.go] and its properties

    The package wraps a Go [error] in a struct [Error] carrying a message, a
    payload, a code, a stack trace and the wrapped cause, and renders that
    struct through zap's [ObjectEncoder].  The embedding follows the source
    function by function; the parts of the Go standard library and of zap the
    package calls ([errors.As], [errors.Unwrap], [runtime.Callers],
    [runtime.CallersFrames], [fmt.Sprintf], [fmt.Errorf], the encoder's
    [AddString] / [AddReflected]) are modelled next to their call sites.
    Cause chains are those of Go 1.13: a value has at most one cause, reached
    through its [Unwrap] method. *)

From Stdlib Require Import String Ascii List ZArith Lia Bool DecimalString.
Import ListNotations.
Local Open Scope list_scope.
Local Open Scope string_scope.

Set Implicit Arguments.

(** ** Calls that may panic *)

(** A Go call either returns a value or panics; [MarshalLogObject] calls a
    method on an interface value that may be nil. *)
Inductive outcome (A : Type) : Type :=
| Returns (a : A)
| Panics (why : string).

Arguments Returns {A} a.
Arguments Panics {A} why.

Definition bind {A B : Type} (m : outcome A) (k : A -> outcome B) : outcome B :=
  match m with
  | Returns a => k a
  | Panics why => Panics why
  end.

Notation "x <- m ;; k" := (bind m (fun x => k))
  (at level 61, m at next level, right associativity).

Definition nil_dereference : string :=
  "runtime error: invalid memory address or nil pointer dereference".

(** ** runtime: frames and the walk over the call stack *)

(** [runtime.Frame], restricted to the three fields the package prints. *)
Record Frame : Type := mkFrame {
  Function : string;
  File : string;
  Line : Z
}.

Definition zero_Frame : Frame := mkFrame "" "" 0.

(** [runtime.Callers(skip, pc)]: fills [pc] with the return addresses of the
    calling goroutine's stack, innermost first, starting [skip] frames up,
    where frame 0 is [runtime.Callers] itself.  The stack is given as the list
    of its logical frames; one program counter stands for one frame.  The
    result is the filled prefix of [pc]; its length is the [n] Go returns. *)
Definition runtime_Callers (skip : nat) (len_pc : nat) (stack : list Frame)
  : list Frame :=
  firstn len_pc (skipn skip stack).

(** The slice expression [s[lo:hi]]. *)
Definition slice {A : Type} (lo hi : nat) (s : list A) : list A :=
  firstn (hi - lo) (skipn lo s).

(** [Next] on a [runtime.Frames] walk: pops one frame; [more] tells whether
    a further call will return a valid frame.  On an empty walk it returns
    the zero [Frame] and [false]. *)
Definition Frames_Next (ci : list Frame) : Frame * bool * list Frame :=
  match ci with
  | [] => (zero_Frame, false, [])
  | frame :: rest => (frame, negb (Nat.eqb (length rest) 0), rest)
  end.

(** The loop of [stackTrace]:
<<
    for {
        frame, more := frames.Next()
        if !more { break }
        traceFrames = append(traceFrames, &frame)
    }
>>
    One iteration consumes one frame of the walk, so the loop is written by
    recursion on the frames still to come; [stackTrace_loop_unfold] below
    states it in terms of [Frames_Next]. *)
Fixpoint stackTrace_loop (frames traceFrames : list Frame) : list Frame :=
  match frames with
  | [] => traceFrames
  | frame :: rest =>
      if negb (Nat.eqb (length rest) 0)
      then stackTrace_loop rest (traceFrames ++ [frame])
      else traceFrames
  end.

(** The frames on the stack below the caller of a constructor when
    [runtime.Callers] runs: [runtime.Callers] itself, [stackTrace], and the
    constructor [ctor] that called [stackTrace]. *)
Definition package_path : string := "github.com/jpascal/zap-errors".

Definition own_frames (ctor : string) (line : Z) : list Frame :=
  [ mkFrame "runtime.Callers" "runtime/extern.go" 0;
    mkFrame (package_path ++ ".stackTrace") "errors.go" 88;
    mkFrame (package_path ++ "." ++ ctor) "errors.go" line ].

(** [stackTrace()], called from the constructor [ctor] at [line], whose own
    callers are [callers] (innermost first).  A slice that is empty but not
    nil is what [make([]*runtime.Frame, 0)] and [append] give, hence a list;
    the nil slice only appears as [None] in the [stacktrace] field below. *)
Definition stackTrace (ctor : string) (line : Z) (callers : list Frame)
  : list Frame :=
  let stack := (own_frames ctor line ++ callers)%list in
  let pc := runtime_Callers 0 10 stack in
  let n := length pc in
  let pc := slice 3 n pc in
  let frames := pc in
  let traceFrames := [] in
  stackTrace_loop frames traceFrames.

(** ** The data model *)

Section Package.

(** Non-nil dynamic values of [interface{}], as far as the package handles
    them: a payload is stored, compared with nil and handed to the encoder. *)
Context {any : Type}.

(** The struct [Error].  [payload = None] is the nil interface,
    [stacktrace = None] the nil slice, [code] a Go [int].  The record is
    parameterised by the type of the [err] field so that it can be declared
    before [error]. *)
Record Error_ (E : Type) : Type := mkError {
  message : string;
  payload : option any;
  code : Z;
  stacktrace : option (list Frame);
  err : E
}.

(** Values of the interface [error]: the nil interface, a value of this
    package's type [Error], or a value of any other type [ty] with the text
    its [Error()] method returns and the error its [Unwrap()] method returns
    ([nil] when it has none).  A [*Error] is such a foreign value too: it is
    not assignable to [Error].  Foreign types with several causes
    ([Unwrap() []error]) or with an [As] method of their own are not
    modelled. *)
#[warnings="-register-all"]
Inductive error : Type :=
| nil
| Foreign (ty : string) (text : string) (cause : error)
| Enriched (ee : Error_ error).

Definition Error : Type := Error_ error.

(** [errors.New(text)]. *)
Definition errors_New (text : string) : error :=
  Foreign "*errors.errorString" text nil.

(** ** The methods of [Error] that make it an [error] *)

Definition Error_Error (ee : Error) : string := message ee.

Definition Error_Unwrap (ee : Error) : error := err ee.

(** The method call [e.Error()] on an interface value: a nil interface has no
    method to call. *)
Definition error_Error (e : error) : outcome string :=
  match e with
  | nil => Panics nil_dereference
  | Foreign _ text _ => Returns text
  | Enriched ee => Returns (Error_Error ee)
  end.

(** ** errors: the standard library's chain walk *)

(** The types [errors.As] compares: this package's [Error], another concrete
    type given by name, or an interface type that every error value
    implements ([interface{}] and [error]).  A non-nil error value has the
    dynamic type [T_Error] when it is [Enriched] and [T_named ty] when it is
    [Foreign ty]. *)
Inductive gotype : Type :=
| T_Error
| T_named (name : string)
| T_interface.

(** [reflect.Type.AssignableTo] on these types: identical types, or an
    interface the value implements. *)
Definition AssignableTo (dyn target : gotype) : bool :=
  match target, dyn with
  | T_interface, _ => true
  | T_Error, T_Error => true
  | T_named t, T_named d => String.eqb d t
  | _, _ => false
  end.

(** [errors.As(err, target)] for a valid [target] pointing to a variable of
    type [targetType]: the first value along the chain of [err] assignable to
    [targetType] is stored through [target]; [Some v] stands for "stored [v],
    returned true", [None] for "returned false".
<<
    for err != nil {
        if reflectlite.TypeOf(err).AssignableTo(targetType) {
            val.Elem().Set(reflectlite.ValueOf(err)); return true }
        ...
        err = Unwrap(err)
    }
    return false
>> *)
Fixpoint errors_As (e : error) (targetType : gotype) : option error :=
  match e with
  | nil => None
  | Foreign ty _ cause =>
      if AssignableTo (T_named ty) targetType then Some e
      else errors_As cause targetType
  | Enriched ee =>
      if AssignableTo T_Error targetType then Some e
      else errors_As (Error_Unwrap ee) targetType
  end.

(** [errors.Unwrap(err)]: the result of [err]'s [Unwrap] method, nil if it
    has none. *)
Definition errors_Unwrap (e : error) : error :=
  match e with
  | nil => nil
  | Foreign _ _ cause => cause
  | Enriched ee => Error_Unwrap ee
  end.

(** [errors.As(err, &x)] with [x] a variable of type [Error], as the package
    calls it in [WithMessage], [Field] and [Unwrap]: on success [x] holds a
    copy of the struct found. *)
Definition errors_As_Error (e : error) : option Error :=
  match errors_As e T_Error with
  | Some (Enriched ee) => Some ee
  | _ => None
  end.

(** ** fmt: what the package needs of [Sprintf] and [Errorf] *)

(** The operands of a format are values of [interface{}] that may hold
    errors; their type and the formatting itself are left to an instance.
    [fmt.Errorf] returns a non-nil value of a type of the standard library
    ([*fmt.wrapError] or [*errors.errorString]), described by the name of that
    type, its text and the operand it wraps with the verb w, if any. *)
Class Fmt : Type := {
  operand : Type;
  Sprintf : string -> list operand -> string;
  Errorf_type : string -> list operand -> string;
  Errorf_text : string -> list operand -> string;
  Errorf_cause : string -> list operand -> error
}.

Context {fmt : Fmt}.

Definition fmt_Errorf (format : string) (a : list operand) : error :=
  Foreign (Errorf_type format a) (Errorf_text format a) (Errorf_cause format a).

(** ** zapcore: the encoder a log object is rendered into *)

(** What an encoder has been given under a key. *)
Inductive value : Type :=
| V_String (s : string)
| V_Reflected (v : any).

(** The structured record: the entries added so far, oldest first. *)
Definition ObjectEncoder : Type := list (string * value).

Definition AddString (key s : string) (enc : ObjectEncoder) : ObjectEncoder :=
  (enc ++ [(key, V_String s)])%list.

(** Whether, and with which error, reflection-based encoding of a value
    fails is a property of the encoder and of the value. *)
Variable reflect_error : any -> error.

Definition AddReflected (key : string) (v : any) (enc : ObjectEncoder)
  : ObjectEncoder * error :=
  match reflect_error v with
  | nil => ((enc ++ [(key, V_Reflected v)])%list, nil)
  | failure => (enc, failure)
  end.

(** The value last stored under a key. *)
Fixpoint lookup (key : string) (enc : ObjectEncoder) : option value :=
  match enc with
  | [] => None
  | (k, v) :: rest =>
      match lookup key rest with
      | Some v' => Some v'
      | None => if String.eqb k key then Some v else None
      end
  end.

(** ** The package *)

Definition TAB : string := String (ascii_of_nat 9) "".
Definition LF : string := String (ascii_of_nat 10) "".

(** The verb d on an [int]. *)
Definition itoa (i : Z) : string := NilZero.string_of_int (Z.to_int i).

(** [len] of a slice that may be nil. *)
Definition len {A : Type} (s : option (list A)) : nat :=
  match s with
  | None => 0
  | Some l => length l
  end.

(** The elements a [range] over a slice visits. *)
Definition elements {A : Type} (s : option (list A)) : list A :=
  match s with
  | None => []
  | Some l => l
  end.

(** One iteration of the loop of [MarshalLogObject]:
    [fmt.Fprintf(buffer, "%s\t\n%s:%d\n", frame.Function, frame.File, frame.Line)]
    appends the function name, a tab, a line feed, the file, a colon, the
    line in decimal and a line feed to the buffer. *)
Definition Fprintf_frame (buffer : string) (frame : Frame) : string :=
  buffer ++ Function frame ++ TAB ++ LF
         ++ File frame ++ ":" ++ itoa (Line frame) ++ LF.

(** [func (ee Error) MarshalLogObject(encoder zapcore.ObjectEncoder) error].
    The encoder is threaded through; the result pairs it with the returned
    error. *)
Definition MarshalLogObject (ee : Error) (encoder : ObjectEncoder)
  : outcome (ObjectEncoder * error) :=
  encoder <- (if Nat.ltb 0 (String.length (message ee))
              then text <- error_Error (err ee) ;;
                   Returns (AddString "message" text encoder)
              else Returns encoder) ;;
  let encoder :=
    if Nat.ltb 0 (len (stacktrace ee))
    then let buffer := fold_left Fprintf_frame (elements (stacktrace ee)) "" in
         AddString "stacktrace" buffer encoder
    else encoder in
  match payload ee with
  | Some p =>
      match AddReflected "payload" p encoder with
      | (encoder, nil) => Returns (encoder, nil)
      | (encoder, failure) => Returns (encoder, failure)
      end
  | None => Returns (encoder, nil)
  end.

(** [func Errorf(format string, a ...interface{}) Error], called with
    [callers] on the stack. *)
Definition Errorf (callers : list Frame) (format : string) (a : list operand)
  : Error :=
  {| err := fmt_Errorf format a;
     stacktrace := Some (stackTrace "Errorf" 50 callers);
     message := Sprintf format a;
     payload := None;
     code := 0 |}.

(** Assignments to one field of a copy of the struct. *)
Definition set_message (m : string) (ee : Error) : Error :=
  {| message := m; payload := payload ee; code := code ee;
     stacktrace := stacktrace ee; err := err ee |}.

Definition set_payload (p : option any) (ee : Error) : Error :=
  {| message := message ee; payload := p; code := code ee;
     stacktrace := stacktrace ee; err := err ee |}.

Definition set_code (c : Z) (ee : Error) : Error :=
  {| message := message ee; payload := payload ee; code := c;
     stacktrace := stacktrace ee; err := err ee |}.

Definition set_stacktrace (s : option (list Frame)) (ee : Error) : Error :=
  {| message := message ee; payload := payload ee; code := code ee;
     stacktrace := s; err := err ee |}.

(** [func WithMessage(err error, format string, a ...interface{}) Error]. *)
Definition WithMessage (callers : list Frame) (e : error) (format : string)
  (a : list operand) : Error :=
  match errors_As_Error e with
  | Some parentEnhancedError =>
      let parentEnhancedError :=
        match stacktrace parentEnhancedError with
        | None =>
            set_stacktrace (Some (stackTrace "WithMessage" 59 callers))
                           parentEnhancedError
        | Some _ => parentEnhancedError
        end in
      let parentEnhancedError :=
        set_message (Sprintf format a ++ ": " ++ message parentEnhancedError)
                    parentEnhancedError in
      parentEnhancedError
  | None =>
      {| err := e;
         stacktrace := Some (stackTrace "WithMessage" 66 callers);
         message := Sprintf format a;
         payload := None;
         code := 0 |}
  end.

Definition WithPayload (ee : Error) (p : option any) : Error :=
  set_payload p ee.

Definition WithCode (ee : Error) (c : Z) : Error :=
  set_code c ee.

Definition WithStacktrace (callers : list Frame) (ee : Error) : Error :=
  set_stacktrace (Some (stackTrace "Error.WithStacktrace" 82 callers)) ee.

(** [zap.Field], for the three ways the package builds one: [zap.Object],
    [zap.Any] on a [map[string]string] (which zap stores for reflection-based
    encoding) and [zap.Skip]. *)
Inductive zap_Field : Type :=
| zap_Object (key : string) (marshaler : Error)
| zap_Any (key : string) (m : list (string * string))
| zap_Skip.

Definition is_nil (e : error) : bool :=
  match e with
  | nil => true
  | _ => false
  end.

(** [func Field(err error) zap.Field]. *)
Definition Field (e : error) : outcome zap_Field :=
  match errors_As_Error e with
  | Some ee => Returns (zap_Object "error" ee)
  | None =>
      if negb (is_nil e)
      then text <- error_Error e ;;
           Returns (zap_Any "error" [("message", text)])
      else Returns zap_Skip
  end.

(** What a caller may pass as [target interface{}]: nil, a pointer to a
    variable of some type, or anything else. *)
Inductive target_value : Type :=
| target_nil
| target_pointer (elem : gotype)
| target_other (ty : string).

(** The type of the variable behind the pointer [&target] inside [As]:
    [target] is a parameter of type [interface{}], whatever it holds. *)
Definition type_of_parameter (target : target_value) : gotype := T_interface.

(** [func As(err error, target interface{}) bool]: [errors.As(err, &target)]. *)
Definition As (e : error) (target : target_value) : bool :=
  match errors_As e (type_of_parameter target) with
  | Some _ => true
  | None => false
  end.

(** [func Unwrap(err error) error]. *)
Definition Unwrap (e : error) : error :=
  match errors_As_Error e with
  | Some _ => errors_Unwrap e
  | None => e
  end.


(** ** The vocabulary of the specification *)

(** The cause chain of an error: its non-nil values, outermost first. *)
Fixpoint chain (e : error) : list error :=
  match e with
  | nil => []
  | Foreign _ _ cause => e :: chain cause
  | Enriched ee => e :: chain (err ee)
  end.

Definition enriched (e : error) : option Error :=
  match e with
  | Enriched ee => Some ee
  | _ => None
  end.

(** The first Enriched Error of a chain, if it has one. *)
Fixpoint first_enriched (l : list error) : option Error :=
  match l with
  | [] => None
  | e :: rest =>
      match enriched e with
      | Some ee => Some ee
      | None => first_enriched rest
      end
  end.

(** The dynamic type of a value of a chain. *)
Definition dynamic_type (e : error) : gotype :=
  match e with
  | Enriched _ => T_Error
  | Foreign ty _ _ => T_named ty
  | nil => T_interface
  end.

(** [As] as the specification describes it: true exactly when the chain of
    [err] holds a value assignable to the type [target] points to. *)
Definition As_specified (e : error) (elem : gotype) : bool :=
  existsb (fun v => AssignableTo (dynamic_type v) elem) (chain e).

(** A stack-trace line as the specification gives it: the function name, a
    line feed, then file:line. *)
Definition specified_frame_line (frame : Frame) : string :=
  Function frame ++ LF ++ File frame ++ ":" ++ itoa (Line frame).

(** A stack-trace entry as the code writes it. *)
Definition frame_entry (frame : Frame) : string :=
  Function frame ++ TAB ++ LF ++ File frame ++ ":" ++ itoa (Line frame) ++ LF.

End Package.

Arguments error any : clear implicits.
Arguments Error any : clear implicits.
Arguments Fmt any : clear implicits.
Arguments value any : clear implicits.
Arguments ObjectEncoder any : clear implicits.
Arguments zap_Field any : clear implicits.

(** ** An instance of [Fmt]: a fragment of Go's formatter

    [fmt.Sprintf] and [fmt.Errorf] run the same formatter; [Errorf] runs it
    with the flag [wrapErrs], which alone makes the verb w legal: applied to
    an error operand it then prints like v and records the operand as the
    wrapped error, while without the flag (and on any other operand) the
    formatter reports a bad verb.  The fragment covers literal text, a
    doubled percent sign, and the verbs v, s, d and w on string, [int] and
    error operands, with at most one verb w; the report of a bad verb on an
    error operand is that of a value created by [errors.New].  Flags, widths,
    other verbs and surplus operands are outside the fragment.  The closed
    examples at the end of the file stay inside it; the general theorems
    hold for every instance of [Fmt]. *)

Section GoFmt.

Context {any : Type}.

Inductive go_operand : Type :=
| op_nil
| op_string (s : string)
| op_int (i : Z)
| op_error (e : error any).

Definition type_name (e : error any) : string :=
  match e with
  | nil => "<nil>"
  | Foreign ty _ _ => ty
  | Enriched _ => "errors.Error"
  end.

Definition text_of (e : error any) : string :=
  match e with
  | nil => "<nil>"
  | Foreign _ text _ => text
  | Enriched ee => Error_Error ee
  end.

(** The report of a bad verb: the verb, then the operand's type and its
    value as reflection prints it (for a [*errors.errorString], the pointed-to
    struct with its one field). *)
Definition badVerb (verb : ascii) (arg : go_operand) : string :=
  "%!" ++ String verb "(" ++
  match arg with
  | op_nil | op_error nil => "<nil>"
  | op_string s => "string=" ++ s
  | op_int i => "int=" ++ itoa i
  | op_error e => type_name e ++ "=&{" ++ text_of e ++ "}"
  end ++ ")".

Definition printArg (wrapErrs : bool) (verb : ascii) (arg : go_operand)
  : string :=
  match arg with
  | op_nil | op_error nil =>
      if Ascii.eqb verb "v" then "<nil>" else badVerb verb arg
  | op_string s =>
      if Ascii.eqb verb "v" || Ascii.eqb verb "s" then s
      else badVerb verb arg
  | op_int i =>
      if Ascii.eqb verb "v" || Ascii.eqb verb "d" then itoa i
      else badVerb verb arg
  | op_error e =>
      if Ascii.eqb verb "v" || Ascii.eqb verb "s" then text_of e
      else if Ascii.eqb verb "w" && wrapErrs then text_of e
      else badVerb verb arg
  end.

Fixpoint doPrintf (wrapErrs : bool) (format : string) (a : list go_operand)
  : string :=
  match format with
  | EmptyString => ""
  | String c EmptyString =>
      if Ascii.eqb c "%" then "%!(NOVERB)" else String c ""
  | String c (String verb rest as tail) =>
      if Ascii.eqb c "%" then
        if Ascii.eqb verb "%" then "%" ++ doPrintf wrapErrs rest a
        else match a with
             | [] => "%!" ++ String verb "(MISSING)" ++ doPrintf wrapErrs rest []
             | arg :: a' => printArg wrapErrs verb arg ++ doPrintf wrapErrs rest a'
             end
      else String c (doPrintf wrapErrs tail a)
  end.

(** The operand [Errorf] wraps: the error given to the first verb w. *)
Fixpoint wrappedErr (format : string) (a : list go_operand) : error any :=
  match format with
  | EmptyString => nil
  | String c EmptyString => nil
  | String c (String verb rest as tail) =>
      if Ascii.eqb c "%" then
        if Ascii.eqb verb "%" then wrappedErr rest a
        else match a with
             | [] => nil
             | arg :: a' =>
                 match arg with
                 | op_error (Foreign _ _ _ as e) | op_error (Enriched _ as e) =>
                     if Ascii.eqb verb "w" then e else wrappedErr rest a'
                 | _ => wrappedErr rest a'
                 end
             end
      else wrappedErr tail a
  end.

#[export] Instance GoFmt : Fmt any := {|
  operand := go_operand;
  Sprintf := doPrintf false;
  Errorf_type := fun format a =>
    if is_nil (wrappedErr format a) then "*errors.errorString"
    else "*fmt.wrapError";
  Errorf_text := doPrintf true;
  Errorf_cause := wrappedErr
|}.

End GoFmt.

(** * Properties *)

(** ** Stack capture *)

(** The loop of [stackTrace], one iteration at a time, as the source has it. *)
Lemma stackTrace_loop_unfold (frames traceFrames : list Frame) :
  stackTrace_loop frames traceFrames =
  let '(frame, more, frames') := Frames_Next frames in
  if more then stackTrace_loop frames' (traceFrames ++ [frame])
  else traceFrames.
Proof.
  destruct frames as [ | frame rest ]; reflexivity.
Qed.

(** The loop leaves before it appends the frame that [Next] returns together
    with [more = false]: the outermost frame of the walk is not recorded. *)
Lemma stackTrace_loop_removelast (frames traceFrames : list Frame) :
  stackTrace_loop frames traceFrames = (traceFrames ++ removelast frames)%list.
Proof.
  revert traceFrames.
  induction frames as [ | frame rest IH ]; intros traceFrames.
  - simpl. now rewrite app_nil_r.
  - destruct rest as [ | frame' rest' ].
    + simpl. now rewrite app_nil_r.
    + change (stackTrace_loop (frame :: frame' :: rest') traceFrames)
        with (stackTrace_loop (frame' :: rest') (traceFrames ++ [frame])).
      rewrite IH, <- app_assoc. reflexivity.
Qed.

(** What [runtime.Callers(0, pc)] stores in the ten slots of [pc]: the three
    frames of the package itself, then up to seven frames of the callers. *)
Lemma runtime_Callers_own_frames (ctor : string) (line : Z)
  (callers : list Frame) :
  runtime_Callers 0 10 (own_frames ctor line ++ callers)%list =
  (own_frames ctor line ++ firstn 7 callers)%list.
Proof.
  unfold runtime_Callers, own_frames. cbn [skipn app].
  do 3 rewrite firstn_cons. reflexivity.
Qed.

(** [pc[3:n]] is within bounds: the three frames of the package itself are
    always on the stack. *)
Lemma stackTrace_slice_in_bounds (ctor : string) (line : Z)
  (callers : list Frame) :
  3 <= length (runtime_Callers 0 10 (own_frames ctor line ++ callers)%list) <= 10.
Proof.
  rewrite runtime_Callers_own_frames, length_app, length_firstn.
  cbn [own_frames length]. lia.
Qed.

(** What [stackTrace] returns: at most seven frames of the callers are read
    and the last one read is dropped. *)
Lemma stackTrace_captures (ctor : string) (line : Z) (callers : list Frame) :
  stackTrace ctor line callers = removelast (firstn 7 callers).
Proof.
  unfold stackTrace. rewrite stackTrace_loop_removelast.
  rewrite runtime_Callers_own_frames. cbn [app]. f_equal.
  unfold slice. rewrite length_app. cbn [own_frames length app skipn].
  apply firstn_all2. lia.
Qed.

(** The captured frames are an initial segment of the callers' frames:
    capture order is stack order, innermost call first. *)
Lemma stackTrace_prefix (ctor : string) (line : Z) (callers : list Frame) :
  exists outer, callers = (stackTrace ctor line callers ++ outer)%list.
Proof.
  rewrite stackTrace_captures.
  destruct (firstn 7 callers) as [ | f l ] eqn:E.
  - exists callers. reflexivity.
  - assert (H : f :: l <> []) by discriminate.
    destruct (exists_last H) as [l' [x Hl']].
    rewrite Hl', removelast_last.
    exists (x :: skipn 7 callers).
    rewrite <- (firstn_skipn 7 callers) at 1.
    rewrite E, Hl', <- app_assoc. reflexivity.
Qed.

(** At most six frames are recorded. *)
Lemma stackTrace_length (ctor : string) (line : Z) (callers : list Frame) :
  length (stackTrace ctor line callers) = Nat.min 7 (length callers) - 1.
Proof.
  rewrite stackTrace_captures.
  rewrite <- (length_firstn 7 callers).
  destruct (firstn 7 callers) as [ | f l ] eqn:E; [ reflexivity | ].
  assert (H : f :: l <> []) by discriminate.
  destruct (exists_last H) as [l' [x Hl']].
  rewrite Hl', removelast_last, length_app. simpl. lia.
Qed.

Section Properties.

Context {any : Type} {fmt : Fmt any}.
Variable reflect_error : any -> error any.

Implicit Types (e cause : error any) (ee parent : Error any).
Implicit Types (callers : list Frame) (format : string).
Implicit Types (encoder enc : ObjectEncoder any) (key : string).

(** ** The chain walk *)

(** Induction along the cause chain. *)
Lemma error_chain_ind (P : error any -> Prop) :
  P nil ->
  (forall ty text cause, P cause -> P (Foreign ty text cause)) ->
  (forall ee, P (err ee) -> P (Enriched ee)) ->
  forall e, P e.
Proof.
  intros Hnil Hforeign Henriched.
  fix IH 1.
  intros [ | ty text cause | ee ].
  - exact Hnil.
  - apply Hforeign, IH.
  - apply Henriched, IH.
Qed.

(** [errors.As] returns the first value of the chain assignable to the
    target type. *)
Lemma errors_As_chain e (targetType : gotype) :
  errors_As e targetType =
  find (fun v => AssignableTo (dynamic_type v) targetType) (chain e).
Proof.
  induction e as [ | ty text cause IH | ee IH ] using error_chain_ind.
  - reflexivity.
  - simpl. destruct (AssignableTo (T_named ty) targetType); auto.
  - simpl. destruct (AssignableTo T_Error targetType); auto.
Qed.

(** With a target of type [Error] it finds the first Enriched Error. *)
Lemma errors_As_Error_chain e :
  errors_As_Error e = first_enriched (chain e).
Proof.
  unfold errors_As_Error.
  induction e as [ | ty text cause IH | ee IH ] using error_chain_ind.
  - reflexivity.
  - simpl. exact IH.
  - reflexivity.
Qed.

(** The walk with a target of a given type succeeds exactly when the
    specification's reading of [As] holds. *)
Lemma errors_As_specified e (targetType : gotype) :
  As_specified e targetType = true <-> errors_As e targetType <> None.
Proof.
  rewrite errors_As_chain. unfold As_specified.
  induction (chain e) as [ | v l IH ]; simpl.
  - split; [ discriminate | intros H; now contradiction H ].
  - destruct (AssignableTo (dynamic_type v) targetType); simpl.
    + split; [ discriminate | reflexivity ].
    + exact IH.
Qed.

(** A chain without an Enriched Error is not matched by a target of type
    [Error]. *)
Lemma first_enriched_None_specified e :
  first_enriched (chain e) = None -> As_specified e T_Error = false.
Proof.
  unfold As_specified.
  induction (chain e) as [ | v l IH ]; simpl; [ reflexivity | ].
  destruct v as [ | ty text cause | ee ]; simpl; auto. discriminate.
Qed.

(** ** Rendering, block by block *)

Lemma append_assoc (s1 s2 s3 : string) : (s1 ++ s2) ++ s3 = s1 ++ s2 ++ s3.
Proof.
  induction s1 as [ | c s1 IH ]; simpl; [ reflexivity | now rewrite IH ].
Qed.

Lemma append_nil_r (s : string) : s ++ "" = s.
Proof.
  induction s as [ | c s IH ]; simpl; [ reflexivity | now rewrite IH ].
Qed.

(** The three [if] blocks of [MarshalLogObject]. *)
Definition message_block ee encoder : outcome (ObjectEncoder any) :=
  if Nat.ltb 0 (String.length (message ee))
  then text <- error_Error (err ee) ;; Returns (AddString "message" text encoder)
  else Returns encoder.

Definition stacktrace_block ee encoder : ObjectEncoder any :=
  if Nat.ltb 0 (len (stacktrace ee))
  then AddString "stacktrace"
         (fold_left Fprintf_frame (elements (stacktrace ee)) "") encoder
  else encoder.

Definition payload_block ee encoder
  : ObjectEncoder any * error any :=
  match payload ee with
  | Some p => AddReflected reflect_error "payload" p encoder
  | None => (encoder, nil)
  end.

Lemma MarshalLogObject_blocks ee encoder :
  MarshalLogObject reflect_error ee encoder =
  (encoder1 <- message_block ee encoder ;;
   Returns (payload_block ee (stacktrace_block ee encoder1))).
Proof.
  unfold MarshalLogObject, message_block, payload_block, stacktrace_block.
  destruct (Nat.ltb 0 (String.length (message ee))); simpl.
  - destruct (error_Error (err ee)) as [ text | why ]; simpl; [ | reflexivity ].
    destruct (payload ee) as [ p | ]; [ | reflexivity ].
    destruct (AddReflected reflect_error "payload" p _) as [ enc' [ | ty t c | x ] ];
      reflexivity.
  - destruct (payload ee) as [ p | ]; [ | reflexivity ].
    destruct (AddReflected reflect_error "payload" p _) as [ enc' [ | ty t c | x ] ];
      reflexivity.
Qed.

(** The buffer after the loop over the frames: one entry per frame, in the
    order of the slice. *)
Lemma fold_Fprintf_frame (frames : list Frame) (buffer : string) :
  fold_left Fprintf_frame frames buffer =
  buffer ++ String.concat "" (map frame_entry frames).
Proof.
  revert buffer.
  induction frames as [ | frame rest IH ]; intros buffer.
  - simpl. now rewrite append_nil_r.
  - cbn [fold_left]. rewrite IH. unfold Fprintf_frame.
    assert (E : String.concat "" (map frame_entry (frame :: rest)) =
                frame_entry frame ++ String.concat "" (map frame_entry rest)).
    { destruct rest; simpl; [ now rewrite append_nil_r | reflexivity ]. }
    rewrite E. unfold frame_entry.
    repeat rewrite append_assoc. reflexivity.
Qed.

Lemma lookup_snoc key (k : string) (v : value any) enc :
  lookup key (enc ++ [(k, v)])%list =
  if String.eqb k key then Some v else lookup key enc.
Proof.
  induction enc as [ | [k' v'] rest IH ]; simpl.
  - reflexivity.
  - rewrite IH. destruct (String.eqb k key); reflexivity.
Qed.

Lemma lookup_stacktrace_block key ee enc :
  String.eqb "stacktrace" key = false ->
  lookup key (stacktrace_block ee enc) = lookup key enc.
Proof.
  intros H. unfold stacktrace_block, AddString.
  destruct (Nat.ltb 0 (len (stacktrace ee))); [ | reflexivity ].
  now rewrite lookup_snoc, H.
Qed.

Lemma lookup_payload_block key ee enc :
  String.eqb "payload" key = false ->
  lookup key (fst (payload_block ee enc)) = lookup key enc.
Proof.
  intros H. unfold payload_block, AddReflected.
  destruct (payload ee) as [ p | ]; [ | reflexivity ].
  destruct (reflect_error p); simpl; try reflexivity.
  now rewrite lookup_snoc, H.
Qed.

(** The first block returns unless the message is non-empty and the cause is
    nil. *)
Lemma message_block_returns ee encoder :
  message ee = "" \/ err ee <> nil ->
  exists encoder1, message_block ee encoder = Returns encoder1.
Proof.
  intros [ H | H ]; unfold message_block.
  - rewrite H. simpl. eauto.
  - destruct (Nat.ltb 0 (String.length (message ee))); [ | eauto ].
    destruct (err ee) as [ | ty text cause | inner ]; simpl; eauto.
    now contradiction H.
Qed.

(** ** Chain inspection: [As] and [Unwrap] *)

(** C1.  [As(err, target)] hands [errors.As] a pointer to its own parameter,
    whose type is [interface{}]: it returns true for every non-nil [err],
    whatever [target] holds, while the specified walk with a target pointing
    to an [Error] answers false on every chain without an Enriched Error.
    On the plain error [errors.New("plain")] with such a target the code
    returns true and the specified walk false. *)
Theorem As_true_on_every_non_nil_error :
  (forall e target, As e target = negb (is_nil e)) /\
  (forall e, first_enriched (chain e) = None ->
             As_specified e T_Error = false) /\
  As (errors_New (any:=any) "plain") (target_pointer T_Error) = true /\
  first_enriched (chain (errors_New (any:=any) "plain")) = None /\
  As_specified (errors_New (any:=any) "plain") T_Error = false.
Proof.
  split; [ | split; [ | repeat split ] ].
  - intros [ | ty text cause | ee ] target; reflexivity.
  - apply first_enriched_None_specified.
Qed.

(** C2, amended.  When the chain of [err] holds an Enriched Error,
    [Unwrap(err)] is [errors.Unwrap(err)]: it removes the outermost layer of
    [err] itself.  That is the cause of the first Enriched Error when [err]
    is that Enriched Error, as for the result of [WithMessage], where it is
    the error wrapped (plain [err]) or the original cause (enriched [err]).
    Otherwise [Unwrap(err)] is [err]. *)
Theorem Unwrap_removes_the_outer_layer e :
  Unwrap e = match first_enriched (chain e) with
             | Some _ => errors_Unwrap e
             | None => e
             end /\
  (forall ee, Unwrap (Enriched ee) = Error_Unwrap ee) /\
  (forall callers format a,
     Unwrap (Enriched (WithMessage callers e format a)) =
     match first_enriched (chain e) with
     | Some parent => Error_Unwrap parent
     | None => e
     end).
Proof.
  split; [ | split ].
  - unfold Unwrap. rewrite errors_As_Error_chain. reflexivity.
  - reflexivity.
  - intros callers format a. unfold Unwrap, WithMessage.
    rewrite (errors_As_Error_chain e).
    destruct (first_enriched (chain e)) as [ parent | ]; [ | reflexivity ].
    destruct (stacktrace parent); reflexivity.
Qed.

(** ** Rendering the stack trace *)

(** C3, amended.  When the stack trace is not empty and rendering gets past
    the message entry, the record's [stacktrace] entry is the concatenation,
    in the order of the captured frames, of one entry per frame: the function
    name, a tab, a line feed, file:line and a line feed.  The captured frames
    are an initial segment of the callers' frames, innermost first. *)
Theorem stacktrace_entry_format ee encoder :
  0 < len (stacktrace ee) ->
  message ee = "" \/ err ee <> nil ->
  (exists encoder' failure,
     MarshalLogObject reflect_error ee encoder = Returns (encoder', failure) /\
     lookup "stacktrace" encoder' =
     Some (V_String (String.concat "" (map frame_entry
                                          (elements (stacktrace ee)))))) /\
  (forall ctor line callers,
     exists outer, callers = (stackTrace ctor line callers ++ outer)%list).
Proof.
  intros Hlen Hmsg. split; [ | intros; apply stackTrace_prefix ].
  rewrite MarshalLogObject_blocks.
  destruct (message_block_returns ee encoder Hmsg) as [ encoder1 E1 ].
  rewrite E1. cbn [bind].
  destruct (payload_block ee (stacktrace_block ee encoder1))
    as [ encoder' failure ] eqn:E3.
  exists encoder', failure. split; [ reflexivity | ].
  change encoder' with (fst (encoder', failure)). rewrite <- E3.
  rewrite lookup_payload_block by reflexivity.
  unfold stacktrace_block, AddString.
  apply Nat.ltb_lt in Hlen. rewrite Hlen.
  rewrite lookup_snoc, fold_Fprintf_frame. reflexivity.
Qed.

(** ** Wrapping *)

(** C4.  When the chain of [err] holds an Enriched Error, [WithMessage]
    returns the first one with the message prefixed by the formatted text and
    a colon and a space; the stack trace is captured now if the slice was
    nil and kept otherwise; cause, payload and code are those of the
    Enriched Error found. *)
Theorem WithMessage_on_enriched callers e format a parent :
  first_enriched (chain e) = Some parent ->
  let r := WithMessage callers e format a in
  message r = Sprintf format a ++ ": " ++ message parent /\
  Error_Error r = Sprintf format a ++ ": " ++ Error_Error parent /\
  stacktrace r = match stacktrace parent with
                 | None => Some (stackTrace "WithMessage" 59 callers)
                 | Some frames => Some frames
                 end /\
  err r = err parent /\
  payload r = payload parent /\
  code r = code parent.
Proof.
  intros H r. subst r. unfold WithMessage.
  rewrite errors_As_Error_chain, H.
  destruct (stacktrace parent) as [ frames | ] eqn:E; cbn; rewrite ?E; auto 10.
Qed.

(** C5.  A stack trace that is not empty survives [WithMessage]; two wraps
    of a plain error in succession leave the trace captured by the first;
    [WithPayload] and [WithCode] keep the trace, and [WithStacktrace]
    replaces it by a fresh capture whatever it was. *)
Theorem stacktrace_replaced_only_by_WithStacktrace :
  (forall callers e format a parent,
     first_enriched (chain e) = Some parent ->
     0 < len (stacktrace parent) ->
     stacktrace (WithMessage callers e format a) = stacktrace parent) /\
  (forall callers1 callers2 e format1 a1 format2 a2,
     first_enriched (chain e) = None ->
     stacktrace (WithMessage callers2
                   (Enriched (WithMessage callers1 e format1 a1)) format2 a2) =
     Some (stackTrace "WithMessage" 66 callers1) /\
     stacktrace (WithMessage callers1 e format1 a1) =
     Some (stackTrace "WithMessage" 66 callers1)) /\
  (forall ee p c,
     stacktrace (WithPayload ee p) = stacktrace ee /\
     stacktrace (WithCode ee c) = stacktrace ee) /\
  (forall callers ee,
     stacktrace (WithStacktrace callers ee) =
     Some (stackTrace "Error.WithStacktrace" 82 callers)).
Proof.
  repeat split.
  - intros callers e format a parent H Hlen. unfold WithMessage.
    rewrite errors_As_Error_chain, H.
    destruct (stacktrace parent) as [ frames | ] eqn:E; cbn; rewrite ?E.
    + reflexivity.
    + simpl in Hlen. lia.
  - unfold WithMessage at 2. rewrite errors_As_Error_chain, H.
    unfold WithMessage. reflexivity.
  - unfold WithMessage. rewrite errors_As_Error_chain, H. reflexivity.
Qed.

Lemma length_pos_iff (s : string) :
  Nat.ltb 0 (String.length s) = true <-> s <> "".
Proof.
  destruct s; simpl; split; intros H; try discriminate; try reflexivity.
  now contradiction H.
Qed.

(** The fields of the value [Errorf] builds. *)
Lemma Errorf_fields callers format a :
  Error_Error (Errorf callers format a) = Sprintf format a /\
  err (Errorf callers format a) = fmt_Errorf format a /\
  error_Error (err (Errorf callers format a)) = Returns (Errorf_text format a) /\
  first_enriched [err (Errorf callers format a)] = None /\
  stacktrace (Errorf callers format a) = Some (stackTrace "Errorf" 50 callers) /\
  payload (Errorf callers format a) = None /\
  code (Errorf callers format a) = 0%Z.
Proof.
  repeat split.
Qed.

(** ** The log adapter *)

(** Rendering an [Error] with a non-empty message and a nil cause panics:
    [ee.err.Error()] is a method call on a nil interface. *)
Lemma MarshalLogObject_nil_cause ee encoder :
  message ee <> "" ->
  err ee = nil ->
  MarshalLogObject reflect_error ee encoder = Panics nil_dereference.
Proof.
  intros Hm He. unfold MarshalLogObject.
  apply length_pos_iff in Hm. rewrite Hm, He. reflexivity.
Qed.

(** C7.  Rendering an [Error] with a non-empty message and a cause stores,
    under [message], the text of the cause, while [Error()] is the [message]
    field, which accumulates the prefixes. *)
Theorem message_entry_holds_cause_text ee encoder :
  message ee <> "" ->
  err ee <> nil ->
  exists text encoder' failure,
    error_Error (err ee) = Returns text /\
    MarshalLogObject reflect_error ee encoder = Returns (encoder', failure) /\
    lookup "message" encoder' = Some (V_String text) /\
    Error_Error ee = message ee.
Proof.
  intros Hm He.
  assert (Ht : exists text, error_Error (err ee) = Returns text).
  { destruct (err ee) as [ | ty text cause | inner ]; simpl; eauto.
    now contradiction He. }
  destruct Ht as [ text Ht ].
  destruct (payload_block ee
              (stacktrace_block ee (AddString "message" text encoder)))
    as [ encoder' failure ] eqn:E3.
  exists text, encoder', failure.
  split; [ exact Ht | ]. split; [ | split; [ | reflexivity ] ].
  - rewrite MarshalLogObject_blocks. unfold message_block.
    apply length_pos_iff in Hm. rewrite Hm, Ht. cbn [bind].
    now rewrite E3.
  - change encoder' with (fst (encoder', failure)). rewrite <- E3.
    rewrite lookup_payload_block, lookup_stacktrace_block by reflexivity.
    unfold AddString. now rewrite lookup_snoc.
Qed.

(** C8.  [Field] returns an object field named [error] holding the first
    Enriched Error of the chain, to be rendered by [MarshalLogObject]; for a
    non-nil error without one, a field named [error] holding the map with
    the one key [message] and the error's text; for nil, the skip field. *)
Theorem Field_cases e :
  (forall ee, first_enriched (chain e) = Some ee ->
              Field e = Returns (zap_Object "error" ee)) /\
  (first_enriched (chain e) = None -> e <> nil ->
   exists text, error_Error e = Returns text /\
                Field e = Returns (zap_Any "error" [("message", text)])) /\
  (e = nil -> Field e = Returns zap_Skip).
Proof.
  unfold Field. rewrite errors_As_Error_chain. repeat split.
  - intros ee H. now rewrite H.
  - intros H Hnil. rewrite H.
    destruct e as [ | ty text cause | inner ].
    + now contradiction Hnil.
    + exists text. split; reflexivity.
    + discriminate H.
  - intros H. subst e. reflexivity.
Qed.

(** C9.  [WithPayload], [WithCode] and [WithStacktrace] set their field and
    leave the four others as on the receiver; and when rendering reaches the
    payload and the encoder fails on it, [MarshalLogObject] returns that
    failure. *)
Theorem builders_set_one_field ee :
  (forall p,
     payload (WithPayload ee p) = p /\
     message (WithPayload ee p) = message ee /\
     code (WithPayload ee p) = code ee /\
     stacktrace (WithPayload ee p) = stacktrace ee /\
     err (WithPayload ee p) = err ee) /\
  (forall c,
     code (WithCode ee c) = c /\
     message (WithCode ee c) = message ee /\
     payload (WithCode ee c) = payload ee /\
     stacktrace (WithCode ee c) = stacktrace ee /\
     err (WithCode ee c) = err ee) /\
  (forall callers,
     stacktrace (WithStacktrace callers ee) =
       Some (stackTrace "Error.WithStacktrace" 82 callers) /\
     message (WithStacktrace callers ee) = message ee /\
     payload (WithStacktrace callers ee) = payload ee /\
     code (WithStacktrace callers ee) = code ee /\
     err (WithStacktrace callers ee) = err ee) /\
  (forall encoder p,
     payload ee = Some p ->
     reflect_error p <> nil ->
     message ee = "" \/ err ee <> nil ->
     exists encoder',
       MarshalLogObject reflect_error ee encoder =
       Returns (encoder', reflect_error p)).
Proof.
  split; [ | split; [ | split ] ];
    [ intros; repeat split | intros; repeat split | intros; repeat split | ].
  intros encoder p Hp Hfail Hmsg.
  rewrite MarshalLogObject_blocks.
  destruct (message_block_returns ee encoder Hmsg) as [ encoder1 E1 ].
  rewrite E1. cbn [bind]. unfold payload_block, AddReflected. rewrite Hp.
  exists (stacktrace_block ee encoder1).
  destruct (reflect_error p); [ now contradiction Hfail | reflexivity .. ].
Qed.

End Properties.

(** * Scenarios

    Closed instances on the formatter fragment [GoFmt], with payloads of type
    [map[string]int]. *)

Definition payload_map : Type := list (string * Z).

(** The stack of a program whose [main] calls [connect], which fails. *)
Definition connect_stack : list Frame :=
  [ mkFrame "main.connect" "main.go" 12;
    mkFrame "main.main" "main.go" 30;
    mkFrame "runtime.main" "runtime/proc.go" 250;
    mkFrame "runtime.goexit" "runtime/asm_amd64.s" 1650 ].

Definition main_stack : list Frame := tl connect_stack.

(** [e1 := Errorf("db connect failed")] in [connect], then
    [e2 := WithMessage(e1, "init service")] in [main]. *)
Definition e1 : Error payload_map :=
  Errorf (fmt := GoFmt) connect_stack "db connect failed" [].

Definition e2 : Error payload_map :=
  WithMessage (fmt := GoFmt) main_stack (Enriched e1) "init service" [].

(** [fmt.Errorf("handler: %w", e1)]: a foreign wrapper around [e1]. *)
Definition handler_error : error payload_map :=
  fmt_Errorf (fmt := GoFmt) "handler: %w" [op_error (Enriched e1)].

(** An encoder that encodes every payload, and one that rejects them all. *)
Definition encodes_all (p : payload_map) : error payload_map := nil.

Definition rejects_all (p : payload_map) : error payload_map :=
  errors_New "json: unsupported value".

(** The scenario of the specification: the text of [e2], its trace, what
    [Unwrap] returns and what rendering stores under [message]. *)
Example scenario_init_service :
  Error_Error e2 = "init service: db connect failed" /\
  stacktrace e2 = Some (removelast connect_stack) /\
  Unwrap (Enriched e2) = errors_New "db connect failed" /\
  exists encoder,
    MarshalLogObject encodes_all e2 [] = Returns (encoder, nil) /\
    lookup "message" encoder = Some (V_String "db connect failed").
Proof.
  repeat split. eexists. split; reflexivity.
Qed.

(** [Errorf("x").WithCode(404).WithPayload(map{"id": 1})]: the record has a
    payload entry and nothing for the code. *)
Example scenario_code_and_payload :
  let e := WithPayload (WithCode (Errorf (fmt := GoFmt) connect_stack "x" []) 404)
                       (Some [("id", 1%Z)]) in
  code e = 404%Z /\
  exists encoder,
    MarshalLogObject encodes_all e [] = Returns (encoder, nil) /\
    map fst encoder = ["message"; "stacktrace"; "payload"] /\
    lookup "payload" encoder = Some (V_Reflected [("id", 1%Z)]) /\
    lookup "code" encoder = None.
Proof.
  split; [ reflexivity | ]. eexists. repeat split.
Qed.

(** C2, counterexample.  The chain of [fmt.Errorf("handler: %w", e1)] holds
    the Enriched Error [e1]; [Unwrap] returns [e1] itself, not the cause of
    [e1]. *)
Lemma Unwrap_handler_error_counterexample :
  first_enriched (chain handler_error) = Some e1 /\
  Unwrap handler_error = Enriched e1 /\
  Error_Unwrap e1 = errors_New "db connect failed" /\
  ~ (forall (e : error payload_map) (ee : Error payload_map),
       first_enriched (chain e) = Some ee -> Unwrap e = Error_Unwrap ee).
Proof.
  repeat split.
  intros H. specialize (H handler_error e1 eq_refl). discriminate H.
Qed.

(** C3, counterexample.  An error created in a goroutine running [worker]
    has one captured frame; it is rendered with a tab before the line feed
    and a line feed at the end: neither the specified line nor that line
    followed by a line feed. *)
Lemma stacktrace_line_counterexample :
  let e := Errorf (any := payload_map) (fmt := GoFmt)
                  [ mkFrame "main.worker" "main.go" 30;
                    mkFrame "runtime.goexit" "runtime/asm_amd64.s" 1650 ]
                  "x" [] in
  let frame := mkFrame "main.worker" "main.go" 30 in
  stacktrace e = Some [frame] /\
  exists encoder rendered,
    MarshalLogObject encodes_all e [] = Returns (encoder, nil) /\
    lookup "stacktrace" encoder = Some (V_String rendered) /\
    rendered = "main.worker" ++ TAB ++ LF ++ "main.go:30" ++ LF /\
    specified_frame_line frame = "main.worker" ++ LF ++ "main.go:30" /\
    rendered <> specified_frame_line frame /\
    rendered <> specified_frame_line frame ++ LF.
Proof.
  split; [ reflexivity | ].
  eexists. eexists.
  split; [ reflexivity | ]. split; [ reflexivity | ].
  repeat split; discriminate.
Qed.

(** The rendering of [e2] has a stack-trace entry in the code's format. *)
Lemma stacktrace_entry_format_witness :
  0 < len (stacktrace e2) /\
  (message e2 = "" \/ err e2 <> nil) /\
  exists encoder' failure,
    MarshalLogObject encodes_all e2 [] = Returns (encoder', failure) /\
    lookup "stacktrace" encoder' =
    Some (V_String (String.concat "" (map frame_entry
                                         (elements (stacktrace e2))))).
Proof.
  assert (H1 : 0 < len (stacktrace e2)) by (vm_compute; repeat constructor).
  assert (H2 : message e2 = "" \/ err e2 <> nil) by (right; discriminate).
  split; [ exact H1 | split; [ exact H2 | ] ].
  exact (proj1 (stacktrace_entry_format encodes_all e2 [] H1 H2)).
Defined.

(** Wrapping [e1] in [main]: the message is prefixed, the trace of [connect]
    is kept. *)
Lemma WithMessage_on_enriched_witness :
  first_enriched (chain (Enriched e1)) = Some e1 /\
  message e2 = "init service: db connect failed" /\
  stacktrace e2 = stacktrace e1 /\
  err e2 = err e1 /\ payload e2 = payload e1 /\ code e2 = code e1.
Proof.
  pose proof (WithMessage_on_enriched (fmt := GoFmt) main_stack (Enriched e1)
                "init service" [] (parent := e1) eq_refl) as H.
  cbv zeta in H. destruct H as (Hm & _ & Hs & He & Hp & Hc).
  split; [ reflexivity | ].
  split; [ exact Hm | ]. split; [ exact Hs | ]. auto.
Defined.

(** The trace captured in [connect] has three frames and survives the wrap
    in [main]. *)
Lemma stacktrace_replaced_only_by_WithStacktrace_witness :
  first_enriched (chain (Enriched e1)) = Some e1 /\
  0 < len (stacktrace e1) /\
  stacktrace (WithMessage (fmt := GoFmt) main_stack (Enriched e1)
                "init service" []) = stacktrace e1.
Proof.
  assert (H : 0 < len (stacktrace e1)) by (vm_compute; repeat constructor).
  split; [ reflexivity | split; [ exact H | ] ].
  exact (proj1 (stacktrace_replaced_only_by_WithStacktrace (fmt := GoFmt))
           main_stack (Enriched e1) "init service" [] e1 eq_refl H).
Defined.

(** Rendering [e2] stores the text of its cause under [message]. *)
Lemma message_entry_holds_cause_text_witness :
  message e2 <> "" /\
  err e2 <> nil /\
  exists text encoder' failure,
    error_Error (err e2) = Returns text /\
    MarshalLogObject encodes_all e2 [] = Returns (encoder', failure) /\
    lookup "message" encoder' = Some (V_String text) /\
    Error_Error e2 = message e2.
Proof.
  assert (H1 : message e2 <> "") by discriminate.
  assert (H2 : err e2 <> nil) by discriminate.
  split; [ exact H1 | split; [ exact H2 | ] ].
  exact (message_entry_holds_cause_text encodes_all e2 [] H1 H2).
Defined.

(** The three cases of [Field] on [e2], on a plain error and on nil. *)
Lemma Field_cases_witness :
  Field (Enriched e2) = Returns (zap_Object "error" e2) /\
  (exists text,
     error_Error (errors_New (any := payload_map) "plain") = Returns text /\
     Field (errors_New (any := payload_map) "plain") =
     Returns (zap_Any "error" [("message", text)])) /\
  Field (nil (any := payload_map)) = Returns zap_Skip.
Proof.
  split; [ | split ].
  - exact (proj1 (Field_cases (Enriched e2)) e2 eq_refl).
  - refine (proj1 (proj2 (Field_cases (errors_New "plain"))) eq_refl _).
    discriminate.
  - exact (proj2 (proj2 (Field_cases nil)) eq_refl).
Defined.

(** An encoder that rejects the payload of [e1.WithPayload(...)]: rendering
    returns its error. *)
Lemma builders_set_one_field_witness :
  let e := WithPayload e1 (Some [("id", 1%Z)]) in
  payload e = Some [("id", 1%Z)] /\
  rejects_all [("id", 1%Z)] <> nil /\
  (message e = "" \/ err e <> nil) /\
  exists encoder',
    MarshalLogObject rejects_all e [] =
    Returns (encoder', errors_New "json: unsupported value").
Proof.
  intros e.
  assert (H1 : payload e = Some [("id", 1%Z)]) by reflexivity.
  assert (H2 : rejects_all [("id", 1%Z)] <> nil) by discriminate.
  assert (H3 : message e = "" \/ err e <> nil) by (right; discriminate).
  split; [ exact H1 | split; [ exact H2 | split; [ exact H3 | ] ] ].
  exact (proj2 (proj2 (proj2 (builders_set_one_field rejects_all e)))
           [] [("id", 1%Z)] H1 H2 H3).
Defined.

(** C6.  With the verb w in the format, [Errorf] stores two different texts:
    [fmt.Sprintf] reports a bad verb in the message, [fmt.Errorf] prints the
    wrapped operand in the text of the cause. *)
Theorem Errorf_wrap_verb_texts_differ :
  let e := Errorf (any := payload_map) (fmt := GoFmt) connect_stack
                  "a: %w" [op_error (errors_New "b")] in
  Error_Error e = "a: %!w(*errors.errorString=&{b})" /\
  err e = Foreign "*fmt.wrapError" "a: b" (errors_New "b") /\
  error_Error (err e) = Returns "a: b" /\
  error_Error (err e) <> Returns (Error_Error e).
Proof.
  repeat split. discriminate.
Qed.

(** C10.  [WithMessage(nil, "ctx")] has a non-empty message and a nil cause;
    [Field] hands it to zap as the object to render, and rendering it
    panics on the method call [ee.err.Error()]. *)
Theorem rendering_WithMessage_nil_panics :
  let e := WithMessage (any := payload_map) (fmt := GoFmt) main_stack nil
                       "ctx" [] in
  message e = "ctx" /\
  err e = nil /\
  Field (Enriched e) = Returns (zap_Object "error" e) /\
  MarshalLogObject encodes_all e [] = Panics nil_dereference.
Proof.
  repeat split.
Qed.

(** * Further properties of the package *)

(** A chain of wraps as callers build it: each layer of the program calls
    [WithMessage] on the error it received, with its own stack, format and
    operands; the innermost layer comes first. *)
Definition layer {any : Type} {fmt : Fmt any} : Type :=
  (list Frame * (string * list operand))%type.

Fixpoint rewrap {any : Type} {fmt : Fmt any} (ee : Error any)
  (layers : list layer) : Error any :=
  match layers with
  | [] => ee
  | (callers, (format, a)) :: rest =>
      rewrap (WithMessage callers (Enriched ee) format a) rest
  end.

(** The text a layer puts in front of the message. *)
Definition prefix_of {any : Type} {fmt : Fmt any} (l : layer) : string :=
  Sprintf (fst (snd l)) (snd (snd l)).

(** The keys [MarshalLogObject] adds for an [Error] whose payload, if any,
    the encoder accepts. *)
Definition rendered_keys {any : Type} (ee : Error any) : list string :=
  ((if Nat.ltb 0 (String.length (message ee)) then ["message"] else []) ++
   (if Nat.ltb 0 (len (stacktrace ee)) then ["stacktrace"] else []) ++
   (match payload ee with Some _ => ["payload"] | None => [] end))%list.

Section Further.

Context {any : Type} {fmt : Fmt any}.
Variable reflect_error : any -> error any.

Implicit Types (e cause : error any) (ee parent : Error any).
Implicit Types (callers : list Frame) (format : string).
Implicit Types (encoder enc : ObjectEncoder any) (layers : list layer).

(** ** Stack capture *)

(** X1.  [stackTrace] records the frames of the constructor's callers,
    starting with the immediate caller: of the at most seven frames it reads
    it keeps all but the last, so never more than six, and none of the
    package's own frames whatever constructor called it. *)
Theorem stackTrace_records_inner_callers (ctor : string) (line : Z) callers :
  stackTrace ctor line callers =
    firstn (Nat.min 7 (length callers) - 1) callers /\
  length (stackTrace ctor line callers) <= 6 /\
  (forall ctor' line', stackTrace ctor' line' callers =
                       stackTrace ctor line callers).
Proof.
  assert (E : forall c l, stackTrace c l callers =
                          firstn (Nat.min 7 (length callers) - 1) callers).
  { intros c l. rewrite stackTrace_captures, removelast_firstn_len.
    rewrite length_firstn, firstn_firstn. f_equal. lia. }
  split; [ apply E | split ].
  - rewrite E, length_firstn. lia.
  - intros ctor' line'. now rewrite !E.
Qed.

(** ** Wrapping *)

Lemma WithMessage_found callers e format a parent :
  first_enriched (chain e) = Some parent ->
  WithMessage callers e format a =
  set_message (Sprintf format a ++ ": " ++ message parent)
    match stacktrace parent with
    | None => set_stacktrace (Some (stackTrace "WithMessage" 59 callers)) parent
    | Some _ => parent
    end.
Proof.
  intros H. unfold WithMessage. rewrite errors_As_Error_chain, H.
  destruct (stacktrace parent); reflexivity.
Qed.

Lemma prefixed_length (s m : string) :
  Nat.ltb 0 (String.length (s ++ ": " ++ m)) = true.
Proof.
  destruct s; reflexivity.
Qed.

(** X2.  On an error whose chain holds no Enriched Error, nil included,
    [WithMessage] builds a new [Error] around it: the cause is the error
    given, the message the formatted text alone, the trace freshly captured,
    payload and code unset; the chain of the result is the result followed
    by the chain of the error given. *)
Theorem WithMessage_on_plain callers e format a :
  first_enriched (chain e) = None ->
  WithMessage callers e format a =
    {| message := Sprintf format a; payload := None; code := 0;
       stacktrace := Some (stackTrace "WithMessage" 66 callers); err := e |} /\
  chain (Enriched (WithMessage callers e format a)) =
    Enriched (WithMessage callers e format a) :: chain e.
Proof.
  intros H.
  assert (E : WithMessage callers e format a =
              {| message := Sprintf format a; payload := None; code := 0;
                 stacktrace := Some (stackTrace "WithMessage" 66 callers);
                 err := e |}).
  { unfold WithMessage. now rewrite errors_As_Error_chain, H. }
  split; [ exact E | ]. rewrite E. reflexivity.
Qed.

(** X3.  [WithMessage] and [Field] look at an error only through the first
    Enriched Error of its chain: the foreign layers wrapped around it, and
    their texts, do not reach the result. *)
Theorem outer_foreign_layers_are_dropped callers e format a parent :
  first_enriched (chain e) = Some parent ->
  WithMessage callers e format a =
    WithMessage callers (Enriched parent) format a /\
  Field e = Field (Enriched parent) /\
  chain (Enriched (WithMessage callers e format a)) =
    Enriched (WithMessage callers e format a) :: chain (err parent).
Proof.
  intros H. split; [ | split ].
  - rewrite (WithMessage_found callers e format a H).
    symmetry. now apply WithMessage_found.
  - unfold Field. rewrite !errors_As_Error_chain, H. reflexivity.
  - rewrite (WithMessage_found callers e format a H).
    destruct (stacktrace parent); reflexivity.
Qed.

Lemma WithMessage_Enriched callers ee format a :
  WithMessage callers (Enriched ee) format a =
  set_message (Sprintf format a ++ ": " ++ message ee)
    match stacktrace ee with
    | None => set_stacktrace (Some (stackTrace "WithMessage" 59 callers)) ee
    | Some _ => ee
    end.
Proof.
  now apply WithMessage_found.
Qed.

Lemma WithMessage_Enriched_stacktrace callers ee format a :
  stacktrace (WithMessage callers (Enriched ee) format a) =
  match stacktrace ee with
  | None => Some (stackTrace "WithMessage" 59 callers)
  | Some frames => Some frames
  end.
Proof.
  rewrite WithMessage_Enriched. destruct (stacktrace ee) eqn:E; simpl; auto.
Qed.

Lemma WithMessage_Enriched_rest callers ee format a :
  err (WithMessage callers (Enriched ee) format a) = err ee /\
  payload (WithMessage callers (Enriched ee) format a) = payload ee /\
  code (WithMessage callers (Enriched ee) format a) = code ee /\
  message (WithMessage callers (Enriched ee) format a) =
    Sprintf format a ++ ": " ++ message ee.
Proof.
  rewrite WithMessage_Enriched. destruct (stacktrace ee); repeat split.
Qed.

(** The cause survives any number of wraps. *)
Lemma rewrap_err ee layers : err (rewrap ee layers) = err ee.
Proof.
  revert ee. induction layers as [ | [callers [format a]] rest IH ]; intros ee.
  - reflexivity.
  - simpl. rewrite IH. apply WithMessage_Enriched_rest.
Qed.

Lemma concat_snoc (sep a b : string) (xs : list string) :
  String.concat sep (xs ++ [(a ++ sep ++ b)%string])%list =
  String.concat sep (xs ++ [a; b])%list.
Proof.
  induction xs as [ | x xs IH ]; [ reflexivity | ].
  destruct xs as [ | y ys ]; [ reflexivity | ].
  change (String.concat sep ((x :: y :: ys) ++ [(a ++ sep ++ b)%string])%list)
    with (x ++ sep ++ String.concat sep ((y :: ys) ++ [(a ++ sep ++ b)%string])%list).
  rewrite IH. reflexivity.
Qed.

(** X4.  After any number of wraps of an [Error], the message is the
    prefixes of the layers, outermost first, then the original message,
    joined by a colon and a space; cause, payload and code are the original
    ones; and the trace is the original one, or, if that slice was nil, the
    one captured by the innermost wrap. *)
Theorem rewrap_accumulates ee layers :
  message (rewrap ee layers) =
    String.concat ": " (rev (map prefix_of layers) ++ [message ee])%list /\
  err (rewrap ee layers) = err ee /\
  payload (rewrap ee layers) = payload ee /\
  code (rewrap ee layers) = code ee /\
  stacktrace (rewrap ee layers) =
    match stacktrace ee, layers with
    | Some frames, _ => Some frames
    | None, [] => None
    | None, (callers, _) :: _ => Some (stackTrace "WithMessage" 59 callers)
    end.
Proof.
  revert ee. induction layers as [ | [callers [format a]] rest IH ]; intros ee.
  - simpl. destruct (stacktrace ee); auto.
  - cbn [rewrap].
    destruct (IH (WithMessage callers (Enriched ee) format a))
      as (Hm & He & Hp & Hc & Hs).
    destruct (WithMessage_Enriched_rest callers ee format a)
      as (He' & Hp' & Hc' & Hm').
    rewrite Hm, He, Hp, Hc, Hs, He', Hp', Hc', Hm'.
    rewrite WithMessage_Enriched_stacktrace.
    repeat split.
    + cbn [map rev]. unfold prefix_of at 2. cbn [fst snd].
      rewrite concat_snoc, <- app_assoc. reflexivity.
    + destruct (stacktrace ee); reflexivity.
Qed.

(** ** Rendering *)

(** X5.  Wrapping does not change the structured record: once an [Error]
    has a message and a trace, the result of [WithMessage] on any error whose
    chain leads to it renders exactly as that [Error] does, the added context
    staying out of the record. *)
Theorem wrapping_keeps_the_record callers e format a parent encoder :
  first_enriched (chain e) = Some parent ->
  message parent <> "" ->
  stacktrace parent <> None ->
  MarshalLogObject reflect_error (WithMessage callers e format a) encoder =
  MarshalLogObject reflect_error parent encoder.
Proof.
  intros H Hm Hs. rewrite (WithMessage_found callers e format a H).
  destruct (stacktrace parent) as [ frames | ] eqn:E; [ | now contradiction Hs ].
  unfold MarshalLogObject. cbn [message set_message err stacktrace payload].
  rewrite prefixed_length, E.
  apply length_pos_iff in Hm. rewrite Hm. reflexivity.
Qed.

(** X6.  Payload and code may be attached before or after wrapping, and in
    either order, with the same result; a later payload or code replaces an
    earlier one. *)
Theorem builders_commute_with_wrapping callers ee format a p p' c c' :
  WithMessage callers (Enriched (WithPayload ee p)) format a =
    WithPayload (WithMessage callers (Enriched ee) format a) p /\
  WithMessage callers (Enriched (WithCode ee c)) format a =
    WithCode (WithMessage callers (Enriched ee) format a) c /\
  WithCode (WithPayload ee p) c = WithPayload (WithCode ee c) p /\
  WithPayload (WithPayload ee p) p' = WithPayload ee p' /\
  WithCode (WithCode ee c) c' = WithCode ee c'.
Proof.
  rewrite !WithMessage_Enriched.
  unfold WithPayload, WithCode.
  cbn [stacktrace set_payload set_code message].
  destruct (stacktrace ee); repeat split.
Qed.

Lemma MarshalLogObject_message_entry ee encoder text :
  message ee <> "" ->
  error_Error (err ee) = Returns text ->
  exists encoder' failure,
    MarshalLogObject reflect_error ee encoder = Returns (encoder', failure) /\
    lookup "message" encoder' = Some (V_String text).
Proof.
  intros Hm Ht.
  destruct (payload_block reflect_error ee
              (stacktrace_block ee (AddString "message" text encoder)))
    as [ encoder' failure ] eqn:E3.
  exists encoder', failure. split.
  - rewrite MarshalLogObject_blocks. unfold message_block.
    apply length_pos_iff in Hm. rewrite Hm, Ht. cbn [bind]. now rewrite E3.
  - change encoder' with (fst (encoder', failure)). rewrite <- E3.
    rewrite lookup_payload_block, lookup_stacktrace_block by reflexivity.
    unfold AddString. now rewrite lookup_snoc.
Qed.

(** X7.  An error created by [Errorf] renders without panic however often
    it has been wrapped, and as soon as its message is not empty the record's
    [message] entry is the text of the error [fmt.Errorf] built, whatever the
    layers added. *)
Theorem Errorf_rooted_errors_render callers format a layers encoder :
  (exists result,
     MarshalLogObject reflect_error (rewrap (Errorf callers format a) layers)
       encoder = Returns result) /\
  (message (rewrap (Errorf callers format a) layers) <> "" ->
   exists encoder' failure,
     MarshalLogObject reflect_error (rewrap (Errorf callers format a) layers)
       encoder = Returns (encoder', failure) /\
     lookup "message" encoder' = Some (V_String (Errorf_text format a))).
Proof.
  assert (He : err (rewrap (Errorf callers format a) layers) =
               fmt_Errorf format a) by apply rewrap_err.
  split.
  - rewrite MarshalLogObject_blocks.
    destruct (message_block_returns (rewrap (Errorf callers format a) layers)
                encoder) as [ encoder1 E1 ].
    { right. rewrite He. discriminate. }
    rewrite E1. cbn [bind]. eauto.
  - intros Hm. apply MarshalLogObject_message_entry; [ exact Hm | ].
    rewrite He. reflexivity.
Qed.

(** X8.  When rendering gets past the message entry and the encoder accepts
    the payload, [MarshalLogObject] returns nil and has added, after the
    entries the encoder already held, the keys [message], [stacktrace] and
    [payload], in this order, each exactly when the message is not empty,
    the trace has a frame, the payload is not nil.  The code is never
    rendered: changing it changes nothing. *)
Theorem rendered_record_keys ee encoder :
  message ee = "" \/ err ee <> nil ->
  (forall p, payload ee = Some p -> reflect_error p = nil) ->
  (exists encoder',
     MarshalLogObject reflect_error ee encoder = Returns (encoder', nil) /\
     map fst encoder' = (map fst encoder ++ rendered_keys ee)%list) /\
  (forall c, MarshalLogObject reflect_error (WithCode ee c) encoder =
             MarshalLogObject reflect_error ee encoder).
Proof.
  intros Hmsg Hpay. split; [ | reflexivity ].
  rewrite MarshalLogObject_blocks.
  unfold message_block, stacktrace_block, payload_block, rendered_keys,
    AddReflected, AddString.
  assert (Ht : Nat.ltb 0 (String.length (message ee)) = true ->
               exists text, error_Error (err ee) = Returns text).
  { intros Hlen. destruct Hmsg as [ Hm | He ].
    - rewrite Hm in Hlen. discriminate.
    - destruct (err ee) as [ | ty text cause | inner ]; simpl; eauto.
      now contradiction He. }
  destruct (Nat.ltb 0 (String.length (message ee)));
    [ destruct (Ht eq_refl) as [ text -> ] | ]; cbn [bind];
    destruct (Nat.ltb 0 (len (stacktrace ee)));
    destruct (payload ee) as [ p | ];
    try rewrite (Hpay p eq_refl);
    eexists; (split; [ reflexivity | ]);
    rewrite ?map_app, <- ?app_assoc, ?app_nil_r; reflexivity.
Qed.

(** X9.  [MarshalLogObject] panics exactly on an [Error] with a non-empty
    message and a nil cause. *)
Theorem MarshalLogObject_panics_iff ee encoder :
  (exists why, MarshalLogObject reflect_error ee encoder = Panics why) <->
  message ee <> "" /\ err ee = nil.
Proof.
  split.
  - intros [ why H ].
    assert (D : message ee = "" \/ err ee <> nil \/
                (message ee <> "" /\ err ee = nil)).
    { destruct (string_dec (message ee) "") as [ Hm | Hm ]; [ now left | ].
      destruct (err ee); [ right; right; now split | right; left .. ];
        discriminate. }
    destruct D as [ Hm | [ He | D ] ]; [ | | exact D ].
    + rewrite MarshalLogObject_blocks in H.
      destruct (message_block_returns ee encoder (or_introl Hm)) as [ x E ].
      rewrite E in H. discriminate H.
    + rewrite MarshalLogObject_blocks in H.
      destruct (message_block_returns ee encoder (or_intror He)) as [ x E ].
      rewrite E in H. discriminate H.
  - intros [ Hm He ]. exists nil_dereference.
    now apply MarshalLogObject_nil_cause.
Qed.

(** ** Chain inspection *)

Lemma Unwrap_chain e :
  Unwrap e = match first_enriched (chain e) with
             | Some _ => errors_Unwrap e
             | None => e
             end.
Proof.
  unfold Unwrap. now rewrite errors_As_Error_chain.
Qed.

Lemma iter_fixed_point (n : nat) e :
  Unwrap e = e -> Nat.iter n Unwrap e = e.
Proof.
  intros H. induction n as [ | n IH ]; simpl; [ reflexivity | ].
  now rewrite IH.
Qed.


(** X11.  Applying [Unwrap] as many times as the chain is long reaches an
    error that [Unwrap] leaves alone and whose chain holds no Enriched
    Error: nil or a plain error. *)
Theorem Unwrap_stabilises e :
  let e' := Nat.iter (length (chain e)) Unwrap e in
  Unwrap e' = e' /\ first_enriched (chain e') = None.
Proof.
  induction e as [ | ty text cause IH | ee IH ] using error_chain_ind.
  - split; reflexivity.
  - cbn zeta in *. cbn [chain length]. rewrite Nat.iter_succ_r.
    rewrite (Unwrap_chain (Foreign ty text cause)).
    cbn [chain first_enriched enriched errors_Unwrap].
    destruct (first_enriched (chain cause)) eqn:E; [ exact IH | ].
    assert (F : Unwrap (Foreign ty text cause) = Foreign ty text cause).
    { rewrite Unwrap_chain. cbn [chain first_enriched enriched]. now rewrite E. }
    rewrite (iter_fixed_point _ F). split; [ exact F | exact E ].
  - cbn zeta in *. cbn [chain length]. rewrite Nat.iter_succ_r.
    exact IH.
Qed.

(** ** Logging *)


End Further.

(** ** Closed instances *)

(** The layers of the scenario: [main] wraps what [connect] returned. *)
Definition init_layers : list (layer (fmt := GoFmt (any := payload_map))) :=
  [ (main_stack, ("init service", [])) ].

(** Wrapping the plain error [errors.New("db connect failed")] in [main]. *)
Lemma WithMessage_on_plain_witness :
  first_enriched (chain (errors_New (any := payload_map) "db connect failed"))
    = None /\
  WithMessage (fmt := GoFmt) main_stack (errors_New "db connect failed")
    "init service" [] =
  {| message := "init service"; payload := None; code := 0;
     stacktrace := Some (stackTrace "WithMessage" 66 main_stack);
     err := errors_New (any := payload_map) "db connect failed" |}.
Proof.
  split; [ reflexivity | ].
  exact (proj1 (WithMessage_on_plain (fmt := GoFmt) main_stack
                  (errors_New "db connect failed") "init service" []
                  eq_refl)).
Defined.

(** Wrapping [fmt.Errorf("handler: %w", e1)] gives what wrapping [e1] gives:
    the text of the handler layer is gone. *)
Lemma outer_foreign_layers_are_dropped_witness :
  first_enriched (chain handler_error) = Some e1 /\
  WithMessage (fmt := GoFmt) main_stack handler_error "init service" [] = e2 /\
  Field handler_error = Field (Enriched e1).
Proof.
  pose proof (outer_foreign_layers_are_dropped (fmt := GoFmt) main_stack
                handler_error "init service" [] (parent := e1) eq_refl)
    as (H1 & H2 & _).
  split; [ reflexivity | split; [ exact H1 | exact H2 ] ].
Defined.

(** [e2] renders as [e1] does. *)
Lemma wrapping_keeps_the_record_witness :
  first_enriched (chain (Enriched e1)) = Some e1 /\
  message e1 <> "" /\
  stacktrace e1 <> None /\
  MarshalLogObject encodes_all e2 [] = MarshalLogObject encodes_all e1 [].
Proof.
  assert (H1 : message e1 <> "") by discriminate.
  assert (H2 : stacktrace e1 <> None) by discriminate.
  split; [ reflexivity | split; [ exact H1 | split; [ exact H2 | ] ] ].
  exact (wrapping_keeps_the_record (fmt := GoFmt) encodes_all main_stack
           (Enriched e1) "init service" [] [] eq_refl H1 H2).
Defined.

(** [e1] wrapped once renders, with the text of [connect]'s error. *)
Lemma Errorf_rooted_errors_render_witness :
  message (rewrap (Errorf connect_stack "db connect failed" []) init_layers)
    <> "" /\
  exists encoder' failure,
    MarshalLogObject encodes_all
      (rewrap (Errorf connect_stack "db connect failed" []) init_layers) [] =
      Returns (encoder', failure) /\
    lookup "message" encoder' = Some (V_String "db connect failed").
Proof.
  assert (H : message (rewrap (Errorf connect_stack "db connect failed" [])
                         init_layers) <> "") by discriminate.
  split; [ exact H | ].
  exact (proj2 (Errorf_rooted_errors_render (fmt := GoFmt) encodes_all
                  connect_stack "db connect failed" [] init_layers []) H).
Defined.

(** The record of [e2] has a message and a trace and no payload. *)
Lemma rendered_record_keys_witness :
  (message e2 = "" \/ err e2 <> nil) /\
  (forall p, payload e2 = Some p -> encodes_all p = nil) /\
  exists encoder',
    MarshalLogObject encodes_all e2 [] = Returns (encoder', nil) /\
    map fst encoder' = ["message"; "stacktrace"].
Proof.
  assert (H1 : message e2 = "" \/ err e2 <> nil) by (right; discriminate).
  assert (H2 : forall p, payload e2 = Some p -> encodes_all p = nil)
    by reflexivity.
  split; [ exact H1 | split; [ exact H2 | ] ].
  exact (proj1 (rendered_record_keys encodes_all e2 [] H1 H2)).
Defined.


